(** * django_conditions: guard chains ([Conditions], [BoundConditions])

    A shallow embedding of [django_conditions/conditions.py].  Python list
    objects live in a heap indexed by references, so that aliasing and
    in-place mutation can be told apart from the creation of a new object;
    guard predicates are arbitrary callables: they read and write the
    attribute store of the model instances and either return a value or
    raise.  A guard has no access to the list objects, so a chain does not
    change while it is being iterated.

    The state-machine engine that uses the chains ([fsm.py]) is not among
    the sources; the part of it that the properties below are about is
    modelled from the specification. *)

From stdpp Require Import gmap strings list fin_maps.

(** ** Python values *)

(** A reference to a list object on the heap. *)
Abbreviation loc := positive (only parsing).

(** What [__get__] may receive as [instance]: [None] on class access, or an
    object.  [truth] is the result of Python's truth test on the object
    (an object is falsy when its class defines [__bool__] returning
    [False] or [__len__] returning [0]). *)
Inductive PyObject :=
| PyNone
| PyInstance (oid : nat) (truth : bool).

Global Instance PyObject_eq_dec : EqDecision PyObject.
Proof. solve_decision. Defined.

Global Instance PyObject_countable : Countable PyObject.
Proof.
  refine (inj_countable'
            (λ o, match o with
                  | PyNone => None
                  | PyInstance i t => Some (i, t)
                  end)
            (λ x, match x with
                  | None => PyNone
                  | Some (i, t) => PyInstance i t
                  end) _).
  by intros [].
Defined.

(** [if instance:] *)
Definition py_bool (o : PyObject) : bool :=
  match o with
  | PyNone => false
  | PyInstance _ t => t
  end.

(** The actor ([settings.AUTH_USER_MODEL]), identified by name. *)
Definition User := string.

(** Values a callable may return; a chain discards them. *)
Inductive PyVal :=
| VNone
| VBool (b : bool)
| VStr (s : string).

(** Modelled from the spec: the module [django_conditions/exceptions.py]
    that declares [ConditionFailed] is not among the sources.  Following the
    error taxonomy of the specification, [ConditionFailed] carries the reason
    of the guard that refused; the other kinds are the failures of the
    state-machine engine, and [OtherError] stands for every exception class
    unrelated to them. *)
Inductive PyExc :=
| ConditionFailed (reason : string)
| InvalidTransition
| PermissionDenied
| ProtectedWriteForbidden
| TypeError (msg : string)
| OtherError (cls msg : string).

(** [except ConditionFailed] *)
Definition is_ConditionFailed (e : PyExc) : bool :=
  match e with
  | ConditionFailed _ => true
  | _ => false
  end.

Inductive Outcome (A : Type) :=
| Returned (a : A)
| Raised (e : PyExc).
Arguments Returned {A} a.
Arguments Raised {A} e.

(** ** The store and the heap *)

(** Attribute values of the model instances, by (object, attribute name). *)
Abbreviation Store := (gmap (PyObject * string) string) (only parsing).

(** A guard predicate: a callable of (instance, user). *)
Definition Guard := PyObject → User → Store → Store * Outcome PyVal.

(** [Conditions] subclasses [list]: the heap holds plain lists and
    [Conditions] objects alike. *)
Inductive ListClass := PlainList | ConditionsClass.

Record ListObj := { cls : ListClass; items : list Guard }.

Record World := { objs : gmap loc ListObj; fields : Store }.

Definition set_objs (w : World) (h : gmap loc ListObj) : World :=
  {| objs := h; fields := fields w |}.

Definition set_fields (w : World) (s : Store) : World :=
  {| objs := objs w; fields := s |}.

(** ** State and exception monad *)

Definition M (A : Type) : Type := World → World * Outcome A.

Global Instance M_ret : MRet M := λ A a w, (w, Returned a).

Global Instance M_bind : MBind M := λ A B f m w,
  match m w with
  | (w', Returned a) => f a w'
  | (w', Raised e) => (w', Raised e)
  end.

Definition raise {A} (e : PyExc) : M A := λ w, (w, Raised e).

(** [try: body / except <catches>: return v]; yields [None] when the body
    completes, so that control falls through to what follows the [try]. *)
Definition try_except_return {A R} (body : M A) (catches : PyExc → bool)
    (v : R) : M (option R) := λ w,
  match body w with
  | (w', Returned _) => (w', Returned None)
  | (w', Raised e) =>
      if catches e then (w', Returned (Some v)) else (w', Raised e)
  end.

(** Calling a guard: it sees and may change the store only. *)
Definition call_guard (func : Guard) (instance : PyObject) (user : User)
    : M PyVal := λ w,
  let (s, r) := func instance user (fields w) in (set_fields w s, r).

(** Reading the items of a list object; a reference that holds no list is
    an argument of the wrong type. *)
Definition list_items (l : loc) : M (list Guard) := λ w,
  match objs w !! l with
  | Some o => (w, Returned (items o))
  | None => (w, Raised (TypeError "not a list"))
  end.

(** A new list object of class [c] holding a copy of [fs]. *)
Definition list_new (c : ListClass) (fs : list Guard) : M loc := λ w,
  let l := fresh (dom (objs w)) in
  (set_objs w (<[l := {| cls := c; items := fs |}]> (objs w)), Returned l).

(** ** Builtins inherited from [list] *)

Module PyList.

(** [list.__add__(self, other)]: a new plain list. *)
Definition __add__ (self other : loc) : M loc :=
  a ← list_items self; b ← list_items other; list_new PlainList (a ++ b).

(** [list.append(self, x)]: in place. *)
Definition append (self : loc) (x : Guard) : M unit := λ w,
  match objs w !! self with
  | Some o =>
      (set_objs w (<[self := {| cls := cls o; items := items o ++ [x] |}]>
                     (objs w)),
       Returned ())
  | None => (w, Raised (TypeError "not a list"))
  end.

(** [list.__iadd__(self, other)], that is [self += other]: in place, and
    the result is [self]. *)
Definition __iadd__ (self other : loc) : M loc := λ w,
  match objs w !! self, objs w !! other with
  | Some o, Some o' =>
      (set_objs w
         (<[self := {| cls := cls o; items := items o ++ items o' |}]>
            (objs w)),
       Returned self)
  | _, _ => (w, Raised (TypeError "not a list"))
  end.

End PyList.

(** ** class BoundConditions (data) and class Conditions *)

Record BoundConditionsObj := { conditions : loc; instance : PyObject }.

Module Conditions.

(** [Conditions(iterable)] *)
Definition new (iterable : loc) : M loc :=
  fs ← list_items iterable; list_new ConditionsClass fs.

(** [return Conditions(super().__add__(other))] *)
Definition __add__ (self other : loc) : M loc :=
  tmp ← PyList.__add__ self other; new tmp.

(** [if instance: return BoundConditions(self, instance)] / [return self] *)
Definition __get__ (self : loc) (instance : PyObject) (owner : string)
    : loc + BoundConditionsObj :=
  if py_bool instance
  then inr {| conditions := self; instance := instance |}
  else inl self.

(** [for func in self: func(instance, user)] *)
Fixpoint for_func_in (fs : list Guard) (instance : PyObject) (user : User)
    : M unit :=
  match fs with
  | [] => mret ()
  | func :: rest =>
      call_guard func instance user;; for_func_in rest instance user
  end.

Definition __call__ (self : loc) (instance : PyObject) (user : User)
    : M unit :=
  fs ← list_items self; for_func_in fs instance user.

Definition as_bool (self : loc) (instance : PyObject) (user : User)
    : M bool :=
  r ← try_except_return (__call__ self instance user)
        is_ConditionFailed false;
  match r with
  | Some b => mret b
  | None => mret true
  end.

End Conditions.

Module BoundConditions.

Definition __init__ (conditions : loc) (instance : PyObject)
    : BoundConditionsObj :=
  {| conditions := conditions; instance := instance |}.

Definition __call__ (self : BoundConditionsObj) (user : User) : M unit :=
  Conditions.__call__ (conditions self) (instance self) user.

Definition as_bool (self : BoundConditionsObj) (user : User) : M bool :=
  Conditions.as_bool (conditions self) (instance self) user.

End BoundConditions.

(** ** The state-machine engine *)

(** Modelled from the spec: a state of the missing engine, an opaque
    comparable label. *)
Definition State := string.

(** Modelled from the spec: [django_conditions/fsm.py] ([FSMField],
    [transition]) is not among the sources, only tests that use it.  A field
    has a name, a declared initial state and may be declared protected. *)
Record FSMField := {
  field_name : string;
  field_default : State;
  field_protected : bool }.

(** Modelled from the spec: the storage slot [get(instance, field)] of the
    missing engine; before any write it holds the declared initial state. *)
Definition slot_get (fld : FSMField) (inst : PyObject) (s : Store) : State :=
  default (field_default fld) (s !! (inst, field_name fld)).

(** Modelled from the spec: the storage slot [set(instance, field, state)]. *)
Definition slot_set (fld : FSMField) (inst : PyObject) (v : State)
    (s : Store) : Store :=
  <[(inst, field_name fld) := v]> s.

(** Modelled from the spec: reading the current value of a field, which is
    always permitted. *)
Definition read (fld : FSMField) (inst : PyObject) : M State := λ w,
  (w, Returned (slot_get fld inst (fields w))).

(** Modelled from the spec: the protected attribute guard around the slot,
    as seen by a direct assignment [instance.field = v] from outside the
    engine. *)
Definition direct_write (fld : FSMField) (inst : PyObject) (v : State)
    : M unit := λ w,
  if field_protected fld
  then (w, Raised ProtectedWriteForbidden)
  else (set_fields w (slot_set fld inst v (fields w)), Returned ()).

(** Modelled from the spec: the action of a transition of the missing
    engine, a callable of (instance) that completes or raises. *)
Definition Action := PyObject → Store → Store * Outcome PyVal.

(** Modelled from the spec: the source states a descriptor of the missing
    engine accepts, a set of states or the wildcard. *)
Inductive Sources :=
| AnyState
| OneOf (states : list State).

(** Modelled from the spec: the transition descriptor of the missing
    engine. *)
Record Descriptor := {
  tr_name : string;
  tr_field : string;
  tr_source : Sources;
  tr_target : State;
  tr_action : Action;
  tr_conditions : loc;
  tr_permission : option string;
  tr_on_error : option State }.

(** Modelled from the spec: whether a descriptor of the missing engine
    accepts the current state. *)
Definition accepts (d : Descriptor) (cur : State) : bool :=
  match tr_source d with
  | AnyState => true
  | OneOf states => bool_decide (cur ∈ states)
  end.

(** Modelled from the spec: a descriptor of the missing engine is a
    candidate for (field, current state, name). *)
Definition matches (fld : FSMField) (cur : State) (name : string)
    (d : Descriptor) : bool :=
  bool_decide (tr_field d = field_name fld)
  && bool_decide (tr_name d = name)
  && accepts d cur.

(** Modelled from the spec: [find(field, currentState, name)] over the
    registered descriptors of the missing engine. *)
Definition find (registry : list Descriptor) (fld : FSMField) (cur : State)
    (name : string) : option Descriptor :=
  head (filter (λ d, matches fld cur name d = true) registry).

Section Engine.

(** The authorization collaborator [check(actor, instance, identifier)]. *)
Variable check : User → PyObject → string → bool.

(** Modelled from the spec: the permission gate; skipped when the descriptor
    declares no permission identifier. *)
Definition permission_gate (d : Descriptor) (inst : PyObject) (actor : User)
    : M unit :=
  match tr_permission d with
  | Some perm => if check actor inst perm then mret () else raise PermissionDenied
  | None => mret ()
  end.

(** Modelled from the spec: steps 5 and 6 of [attempt], running the action
    and committing the target state, or the error-target state when the
    action raises and one is declared; the failure of the action is
    re-signalled. *)
Definition run_action (fld : FSMField) (d : Descriptor) (inst : PyObject)
    : M PyVal := λ w,
  match tr_action d inst (fields w) with
  | (s, Returned v) =>
      (set_fields w (slot_set fld inst (tr_target d) s), Returned v)
  | (s, Raised e) =>
      match tr_on_error d with
      | Some failed => (set_fields w (slot_set fld inst failed s), Raised e)
      | None => (set_fields w s, Raised e)
      end
  end.

(** Modelled from the spec: [attempt(field, instance, name, actor)] of the
    missing engine, in the order permission, conditions, action, commit. *)
Definition attempt (registry : list Descriptor) (fld : FSMField)
    (inst : PyObject) (name : string) (actor : User) : M PyVal :=
  cur ← read fld inst;
  match find registry fld cur name with
  | None => raise InvalidTransition
  | Some d =>
      permission_gate d inst actor;;
      Conditions.__call__ (tr_conditions d) inst actor;;
      run_action fld d inst
  end.

End Engine.

(** ** Predicates used in the statements *)

(** Every guard of [fs] passes when the guards are called in list order on
    [(inst, user)], each one on the store left by the one before it; the last
    argument is the store left by the last guard. *)
Inductive all_pass (inst : PyObject) (user : User)
    : list Guard → Store → Store → Prop :=
| all_pass_nil s : all_pass inst user [] s s
| all_pass_cons func rest s s1 s2 v :
    func inst user s = (s1, Returned v) →
    all_pass inst user rest s1 s2 →
    all_pass inst user (func :: rest) s s2.

(** [func] is the first guard of [pre ++ func :: post] that fails: the guards
    before it pass, leaving the store [s1], on which [func] raises [e] and
    leaves the store [s2]. *)
Definition first_failure (inst : PyObject) (user : User)
    (pre : list Guard) (func : Guard) (s s2 : Store) (e : PyExc) : Prop :=
  ∃ s1, all_pass inst user pre s s1 ∧ func inst user s1 = (s2, Raised e).

(** A guard free of mutation, as the specification requires of guard
    predicates. *)
Definition pure_guard (g : Guard) : Prop :=
  ∀ inst user s, (g inst user s).1 = s.

(** The permission gate lets [actor] through. *)
Definition granted (check : User → PyObject → string → bool)
    (d : Descriptor) (inst : PyObject) (actor : User) : bool :=
  match tr_permission d with
  | Some perm => check actor inst perm
  | None => true
  end.

(** ** The public interface of a chain *)

(** What [Conditions] defines itself. *)
Inductive OwnOp :=
| OpAdd (other : loc)
| OpGet (inst : PyObject) (owner : string)
| OpCall (inst : PyObject) (user : User)
| OpAsBool (inst : PyObject) (user : User).

(** What it inherits from [list] (two of the mutators). *)
Inductive InheritedOp :=
| OpAppend (x : Guard)
| OpIAdd (other : loc).

Inductive PublicOp :=
| Own (op : OwnOp)
| Inherited (op : InheritedOp).

(** Performing an operation on the chain [self], its result dropped. *)
Definition perform (op : PublicOp) (self : loc) : M unit :=
  match op with
  | Own (OpAdd other) => Conditions.__add__ self other;; mret ()
  | Own (OpGet inst owner) =>
      let _ := Conditions.__get__ self inst owner in mret ()
  | Own (OpCall inst user) => Conditions.__call__ self inst user
  | Own (OpAsBool inst user) => Conditions.as_bool self inst user;; mret ()
  | Inherited (OpAppend x) => PyList.append self x
  | Inherited (OpIAdd other) => PyList.__iadd__ self other;; mret ()
  end.

(** [op] leaves the items of every chain it is performed on as they were. *)
Definition keeps_items (op : PublicOp) : Prop :=
  ∀ w self o,
    objs w !! self = Some o →
    items <$> objs (perform op self w).1 !! self = Some (items o).

(** ** Sample guards, objects and worlds *)

Module Sample.

Definition alice : User := "alice".

Definition article : PyObject := PyInstance 1 true.

(** An instance whose truth test is false. *)
Definition empty_basket : PyObject := PyInstance 2 false.

Definition passes : Guard := λ _ _ s, (s, Returned VNone).

(** Returns [False] instead of raising. *)
Definition returns_false : Guard := λ _ _ s, (s, Returned (VBool false)).

Definition fails (reason : string) : Guard :=
  λ _ _ s, (s, Raised (ConditionFailed reason)).

Definition crashes : Guard :=
  λ _ _ s, (s, Raised (OtherError "ValueError" "boom")).

(** A callable that writes to the instance. *)
Definition marks : Guard :=
  λ inst _ s, (<[(inst, "seen") := "yes"]> s, Returned VNone).

Definition chain (fs : list Guard) : ListObj :=
  {| cls := ConditionsClass; items := fs |}.

(** Chains at references 1 to 6. *)
Definition world : World :=
  {| objs := {[ 1%positive := chain [passes; returns_false];
                2%positive := chain [passes; fails "not owner"; fails "late"];
                3%positive := chain [];
                4%positive := chain [passes; crashes; fails "late"];
                5%positive := chain [marks];
                6%positive := chain [fails "not owner"; marks] ]};
     fields := ∅ |}.

(** [test_protected_fields.py]: [status = FSMField(default='new',
    protected=True)] with [publish] from [new] to [published]. *)
Definition status : FSMField :=
  {| field_name := "status"; field_default := "new";
     field_protected := true |}.

Definition publish_status : Descriptor :=
  {| tr_name := "publish"; tr_field := "status";
     tr_source := OneOf ["new"]; tr_target := "published";
     tr_action := λ _ s, (s, Returned VNone);
     tr_conditions := 3%positive;
     tr_permission := None; tr_on_error := None |}.

(** [test_object_permissions.py]: [state = FSMField(default="new")] with
    [publish] from [new] to [published], [on_error="failed"] and a
    permission; here with an action that raises. *)
Definition state : FSMField :=
  {| field_name := "state"; field_default := "new";
     field_protected := false |}.

Definition publish_state : Descriptor :=
  {| tr_name := "publish"; tr_field := "state";
     tr_source := OneOf ["new"]; tr_target := "published";
     tr_action := λ _ s, (s, Raised (OtherError "ValueError" "boom"));
     tr_conditions := 3%positive;
     tr_permission := Some "testapp.can_publish_objectpermissiontestmodel";
     tr_on_error := Some "failed" |}.

Definition allow_all : User → PyObject → string → bool := λ _ _ _, true.

End Sample.

(** ** What a chain observes of a guard *)

(** The exception of an outcome, if any; the returned value is dropped. *)
Definition raised {A} (r : Outcome A) : option PyExc :=
  match r with
  | Returned _ => None
  | Raised e => Some e
  end.

(** Two guards that write the same and raise the same, and may differ in
    the value they return. *)
Definition same_but_value (g g' : Guard) : Prop :=
  ∀ inst user s,
    (g inst user s).1 = (g' inst user s).1
    ∧ raised (g inst user s).2 = raised (g' inst user s).2.

Module Scenario.

(** A chain whose first guard writes before the second one refuses, two
    chains that differ in returned values only, and an empty chain. *)
Definition world : World :=
  {| objs := {[ 1%positive :=
                  Sample.chain [Sample.marks; Sample.fails "not owner";
                                Sample.crashes];
                2%positive := Sample.chain [Sample.passes; Sample.passes];
                3%positive :=
                  Sample.chain [Sample.returns_false; Sample.returns_false];
                4%positive := Sample.chain [] ]};
     fields := ∅ |}.

End Scenario.

(** * Properties *)

(** ** Helper lemmas *)

(** One step of the loop: the bind of the monad around a guard call. *)
Ltac step_guard := unfold mbind, M_bind, call_guard.

Lemma set_fields_id (w : World) : set_fields w (fields w) = w.
Proof. by destruct w. Qed.

Lemma for_func_in_pass fs inst user w s' :
  all_pass inst user fs (fields w) s' →
  Conditions.for_func_in fs inst user w = (set_fields w s', Returned ()).
Proof.
  intros H. remember (fields w) as s eqn:Hs. revert w Hs.
  induction H as [s|func rest s s1 s2 v Hf _ IH]; intros w ->; simpl.
  - by rewrite <- (set_fields_id w) at 1.
  - step_guard. rewrite Hf.
    by rewrite (IH (set_fields w s1) eq_refl).
Qed.

Lemma for_func_in_fail pre func post inst user w s2 e :
  first_failure inst user pre func (fields w) s2 e →
  Conditions.for_func_in (pre ++ func :: post) inst user w
  = (set_fields w s2, Raised e).
Proof.
  intros (s1 & H & Hf). remember (fields w) as s eqn:Hs. revert w Hs.
  induction H as [s|g rest s s0 s1 v Hg _ IH]; intros w ->; simpl.
  - step_guard. by rewrite Hf.
  - step_guard. rewrite Hg.
    by rewrite (IH Hf (set_fields w s0) eq_refl).
Qed.

(** The loop is total, and its result is one of the two above. *)
Lemma for_func_in_cases fs inst user w :
  (∃ s', all_pass inst user fs (fields w) s'
         ∧ Conditions.for_func_in fs inst user w
           = (set_fields w s', Returned ()))
  ∨ (∃ pre func post s2 e,
        fs = pre ++ func :: post
        ∧ first_failure inst user pre func (fields w) s2 e
        ∧ Conditions.for_func_in fs inst user w
          = (set_fields w s2, Raised e)).
Proof.
  revert w. induction fs as [|g rest IH]; intros w.
  - left. exists (fields w). split; [constructor|].
    simpl. by rewrite set_fields_id.
  - destruct (g inst user (fields w)) as [s1 [v|e]] eqn:Hg.
    + destruct (IH (set_fields w s1)) as
        [(s' & Hp & Hr)|(pre & func & post & s2 & e & -> & Hff & Hr)].
      * left. exists s'. split; [by econstructor|].
        simpl. step_guard. by rewrite Hg, Hr.
      * right. exists (g :: pre), func, post, s2, e.
        destruct Hff as (s0 & Hp & Hf). split; [done|]. split.
        -- exists s0. split; [by econstructor|done].
        -- simpl. step_guard. by rewrite Hg, Hr.
    + right. exists [], g, rest, s1, e. split; [done|]. split.
      * exists (fields w). split; [constructor|done].
      * simpl. step_guard. by rewrite Hg.
Qed.

Lemma call_items w self o inst user :
  objs w !! self = Some o →
  Conditions.__call__ self inst user w
  = Conditions.for_func_in (items o) inst user w.
Proof.
  intros H. unfold Conditions.__call__, mbind, M_bind, list_items.
  by rewrite H.
Qed.

Lemma as_bool_call self inst user w :
  Conditions.as_bool self inst user w
  = match Conditions.__call__ self inst user w with
    | (w', Returned _) => (w', Returned true)
    | (w', Raised e) =>
        if is_ConditionFailed e then (w', Returned false) else (w', Raised e)
    end.
Proof.
  unfold Conditions.as_bool, mbind, M_bind, try_except_return.
  destruct (Conditions.__call__ self inst user w) as [w' [[]|e]]; [done|].
  by destruct (is_ConditionFailed e).
Qed.

Lemma call_pass w self o inst user s' :
  objs w !! self = Some o →
  all_pass inst user (items o) (fields w) s' →
  Conditions.__call__ self inst user w = (set_fields w s', Returned ()).
Proof. intros Ho Hp. rewrite (call_items _ _ _ _ _ Ho). by apply for_func_in_pass. Qed.

Lemma call_fail w self o inst user pre func post s2 e :
  objs w !! self = Some o →
  items o = pre ++ func :: post →
  first_failure inst user pre func (fields w) s2 e →
  Conditions.__call__ self inst user w = (set_fields w s2, Raised e).
Proof.
  intros Ho Hi Hf. rewrite (call_items _ _ _ _ _ Ho), Hi.
  by apply for_func_in_fail.
Qed.

Lemma call_cases w self o inst user :
  objs w !! self = Some o →
  (∃ s', all_pass inst user (items o) (fields w) s'
         ∧ Conditions.__call__ self inst user w
           = (set_fields w s', Returned ()))
  ∨ (∃ pre func post s2 e,
        items o = pre ++ func :: post
        ∧ first_failure inst user pre func (fields w) s2 e
        ∧ Conditions.__call__ self inst user w
          = (set_fields w s2, Raised e)).
Proof.
  intros Ho. rewrite (call_items _ _ _ _ _ Ho). apply for_func_in_cases.
Qed.

Lemma all_pass_pure inst user fs s s' :
  Forall pure_guard fs → all_pass inst user fs s s' → s' = s.
Proof.
  intros Hpure H. induction H as [s|func rest s s1 s2 v Hf _ IH]; [done|].
  apply Forall_cons in Hpure as [Hg Hrest].
  specialize (Hg inst user s). rewrite Hf in Hg. simpl in Hg. subst s1.
  by apply IH.
Qed.

Lemma first_failure_pure inst user pre func post s s2 e :
  Forall pure_guard (pre ++ func :: post) →
  first_failure inst user pre func s s2 e → s2 = s.
Proof.
  intros Hpure (s1 & Hp & Hf).
  apply Forall_app in Hpure as [Hpre Hrest].
  apply Forall_cons in Hrest as [Hg _].
  apply (all_pass_pure _ _ _ _ _ Hpre) in Hp. subst s1.
  specialize (Hg inst user s). by rewrite Hf in Hg.
Qed.

(** ** The chain evaluator *)

(** C1: calling a chain runs its guards in list order, each on the store
    left by the one before; at the first guard that raises, the call raises
    that guard's exception (for a refusing guard, [ConditionFailed] with its
    reason) and the world is the one that guard left, whatever the guards
    after it are; when every guard passes, the call returns; and one of the
    two is always the case. *)
Theorem call_stops_at_first_failure w self o inst user :
  objs w !! self = Some o →
  (∀ pre func post s2 e,
      items o = pre ++ func :: post →
      first_failure inst user pre func (fields w) s2 e →
      Conditions.__call__ self inst user w = (set_fields w s2, Raised e))
  ∧ (∀ s',
      all_pass inst user (items o) (fields w) s' →
      Conditions.__call__ self inst user w = (set_fields w s', Returned ()))
  ∧ ((∃ s', all_pass inst user (items o) (fields w) s')
     ∨ (∃ pre func post s2 e,
           items o = pre ++ func :: post
           ∧ first_failure inst user pre func (fields w) s2 e)).
Proof.
  intros Ho. split; [|split].
  - intros pre func post s2 e. by apply call_fail.
  - intros s'. by apply call_pass.
  - destruct (call_cases w self o inst user Ho) as
      [(s' & Hp & _)|(pre & func & post & s2 & e & Hi & Hf & _)].
    + left. by exists s'.
    + right. by exists pre, func, post, s2, e.
Qed.

Lemma call_stops_at_first_failure_witness :
  Conditions.__call__ 2%positive Sample.article Sample.alice Sample.world
  = (Sample.world, Raised (ConditionFailed "not owner"))
  ∧ Conditions.__call__ 1%positive Sample.article Sample.alice Sample.world
    = (Sample.world, Returned ())
  ∧ Conditions.__call__ 6%positive Sample.article Sample.alice Sample.world
    = (Sample.world, Raised (ConditionFailed "not owner")).
Proof.
  split; [|split].
  - apply (proj1 (call_stops_at_first_failure Sample.world 2%positive
                    (Sample.chain [Sample.passes; Sample.fails "not owner";
                                   Sample.fails "late"])
                    Sample.article Sample.alice eq_refl)
             [Sample.passes] (Sample.fails "not owner") [Sample.fails "late"]
             ∅ (ConditionFailed "not owner") eq_refl).
    exists ∅. split; [|reflexivity].
    eapply all_pass_cons; [reflexivity|constructor].
  - apply (proj1 (proj2 (call_stops_at_first_failure Sample.world 1%positive
                           (Sample.chain [Sample.passes; Sample.returns_false])
                           Sample.article Sample.alice eq_refl)) ∅).
    eapply all_pass_cons; [reflexivity|].
    eapply all_pass_cons; [reflexivity|constructor].
  - apply (proj1 (call_stops_at_first_failure Sample.world 6%positive
                    (Sample.chain [Sample.fails "not owner"; Sample.marks])
                    Sample.article Sample.alice eq_refl)
             [] (Sample.fails "not owner") [Sample.marks]
             ∅ (ConditionFailed "not owner") eq_refl).
    exists ∅. split; [constructor|reflexivity].
Defined.

(** C9: an empty chain always succeeds: the call returns and [as_bool] is
    [True], the world untouched. *)
Theorem empty_chain_succeeds w self o inst user :
  objs w !! self = Some o →
  items o = [] →
  Conditions.__call__ self inst user w = (w, Returned ())
  ∧ Conditions.as_bool self inst user w = (w, Returned true).
Proof.
  intros Ho Hi.
  assert (Conditions.__call__ self inst user w = (w, Returned ())) as Hc.
  { rewrite (call_items _ _ _ _ _ Ho), Hi. reflexivity. }
  split; [done|]. by rewrite as_bool_call, Hc.
Qed.

Lemma empty_chain_succeeds_witness :
  Conditions.__call__ 3%positive Sample.article Sample.alice Sample.world
  = (Sample.world, Returned ())
  ∧ Conditions.as_bool 3%positive Sample.article Sample.alice Sample.world
    = (Sample.world, Returned true).
Proof.
  apply (empty_chain_succeeds Sample.world 3%positive (Sample.chain [])
           Sample.article Sample.alice); reflexivity.
Defined.

(** C10: [as_bool] suppresses [ConditionFailed] only: when the first guard
    that raises raises another kind of error, [as_bool] raises that error
    and returns no boolean. *)
Theorem as_bool_propagates_other_errors
    w self o inst user pre func post s2 e :
  objs w !! self = Some o →
  items o = pre ++ func :: post →
  first_failure inst user pre func (fields w) s2 e →
  is_ConditionFailed e = false →
  Conditions.as_bool self inst user w = (set_fields w s2, Raised e).
Proof.
  intros Ho Hi Hf He.
  by rewrite as_bool_call, (call_fail _ _ _ _ _ _ _ _ _ _ Ho Hi Hf), He.
Qed.

Lemma as_bool_propagates_other_errors_witness :
  Conditions.as_bool 4%positive Sample.article Sample.alice Sample.world
  = (Sample.world, Raised (OtherError "ValueError" "boom")).
Proof.
  apply (as_bool_propagates_other_errors Sample.world 4%positive
           (Sample.chain [Sample.passes; Sample.crashes; Sample.fails "late"])
           Sample.article Sample.alice
           [Sample.passes] Sample.crashes [Sample.fails "late"] ∅
           (OtherError "ValueError" "boom")); try reflexivity.
  exists ∅. split; [|reflexivity].
  eapply all_pass_cons; [reflexivity|constructor].
Defined.

(** C3: [as_bool] returns [False] exactly when calling the chain raises
    [ConditionFailed], returns [True] exactly when every guard passes, never
    raises [ConditionFailed] itself, never touches the chains, writes
    nothing to the store beyond what the guards it called wrote, and so
    leaves the world as it was when the guards are free of mutation. *)
Theorem as_bool_reflects_call w self o inst user :
  objs w !! self = Some o →
  ((∃ w', Conditions.as_bool self inst user w = (w', Returned false))
   ↔ (∃ w' reason,
         Conditions.__call__ self inst user w
         = (w', Raised (ConditionFailed reason))))
  ∧ ((∃ w', Conditions.as_bool self inst user w = (w', Returned true))
     ↔ (∃ s', all_pass inst user (items o) (fields w) s'))
  ∧ (∀ w' e,
        Conditions.as_bool self inst user w = (w', Raised e) →
        is_ConditionFailed e = false)
  ∧ objs (Conditions.as_bool self inst user w).1 = objs w
  ∧ (Conditions.as_bool self inst user w).1
    = (Conditions.__call__ self inst user w).1
  ∧ (Forall pure_guard (items o) →
     (Conditions.as_bool self inst user w).1 = w).
Proof.
  intros Ho. rewrite as_bool_call.
  destruct (call_cases w self o inst user Ho) as
    [(s' & Hp & Hr)|(pre & func & post & s2 & e & Hi & Hf & Hr)];
    rewrite Hr.
  - repeat split.
    + by intros [w' ?].
    + by intros (w' & reason & ?).
    + intros _. by exists s'.
    + intros _. by eexists.
    + by intros w' e ?.
    + intros Hpure. rewrite (all_pass_pure _ _ _ _ _ Hpure Hp).
      apply set_fields_id.
  - assert (∀ s', ¬ all_pass inst user (items o) (fields w) s') as Hnot.
    { intros s' Hp. rewrite (call_pass _ _ _ _ _ _ Ho Hp) in Hr.
      discriminate. }
    assert (Forall pure_guard (items o) → set_fields w s2 = w) as Hsame.
    { intros Hpure. rewrite Hi in Hpure.
      rewrite (first_failure_pure _ _ _ _ _ _ _ _ Hpure Hf).
      apply set_fields_id. }
    destruct e; simpl; repeat split;
      try done; try (by intros [? ?]); try (by intros (? & ? & ?));
      try (by intros [s' ?%Hnot]); try (by eexists);
      try (by eexists _, _); try (by intros ? ? [= <- <-]).
Qed.

Lemma as_bool_reflects_call_witness :
  (∃ w', Conditions.as_bool 2%positive Sample.article Sample.alice
           Sample.world = (w', Returned false))
  ∧ (Conditions.as_bool 2%positive Sample.article Sample.alice
       Sample.world).1 = Sample.world.
Proof.
  pose proof (as_bool_reflects_call Sample.world 2%positive
                (Sample.chain [Sample.passes; Sample.fails "not owner";
                               Sample.fails "late"])
                Sample.article Sample.alice eq_refl)
    as (Hfalse & _ & _ & _ & _ & Hpure).
  split.
  - apply Hfalse. by exists Sample.world, "not owner".
  - apply Hpure. by repeat constructor.
Defined.

(** ** Bound chains and descriptor access *)

(** C5: the bound chain built from a chain and an instance is the chain with
    the instance applied: its call and its [as_bool] on a user are the
    chain's on (instance, user), in every world; so is the bound chain that
    descriptor access on a truthy instance returns. *)
Theorem bound_chain_is_chain_on_instance c inst owner user w :
  BoundConditions.__call__ (BoundConditions.__init__ c inst) user w
  = Conditions.__call__ c inst user w
  ∧ BoundConditions.as_bool (BoundConditions.__init__ c inst) user w
    = Conditions.as_bool c inst user w
  ∧ (py_bool inst = true →
     Conditions.__get__ c inst owner = inr (BoundConditions.__init__ c inst)).
Proof.
  repeat split. unfold Conditions.__get__. by intros ->.
Qed.

Lemma bound_chain_is_chain_on_instance_witness :
  BoundConditions.as_bool
    (BoundConditions.__init__ 2%positive Sample.article) Sample.alice
    Sample.world
  = Conditions.as_bool 2%positive Sample.article Sample.alice Sample.world
  ∧ Conditions.__get__ 2%positive Sample.article "Article"
    = inr (BoundConditions.__init__ 2%positive Sample.article).
Proof.
  pose proof (bound_chain_is_chain_on_instance 2%positive Sample.article
                "Article" Sample.alice Sample.world) as (_ & Hb & Hget).
  split; [exact Hb|]. apply Hget. reflexivity.
Defined.

(** C4: descriptor access on the class ([instance] is [None]) returns the
    chain itself and access on a truthy instance returns a bound chain for
    that instance; access on an instance whose truth test is false returns
    the unbound chain, not a bound one. *)
Theorem get_tests_truth_of_instance self owner :
  Conditions.__get__ self PyNone owner = inl self
  ∧ (∀ oid,
        Conditions.__get__ self (PyInstance oid true) owner
        = inr {| conditions := self; instance := PyInstance oid true |})
  ∧ (∀ oid,
        Conditions.__get__ self (PyInstance oid false) owner = inl self)
  ∧ Conditions.__get__ 1%positive Sample.empty_basket "Basket"
    = inl 1%positive.
Proof. done. Qed.

(** ** Concatenation and mutation *)

Lemma add_result w a b oa ob :
  objs w !! a = Some oa →
  objs w !! b = Some ob →
  let both := items oa ++ items ob in
  let h := <[fresh (dom (objs w)) := {| cls := PlainList; items := both |}]>
             (objs w) in
  Conditions.__add__ a b w
  = (set_objs w (<[fresh (dom h) :=
                     {| cls := ConditionsClass; items := both |}]> h),
     Returned (fresh (dom h))).
Proof.
  intros Ha Hb both h.
  unfold Conditions.__add__, PyList.__add__, Conditions.new, mbind, M_bind,
    list_items, list_new.
  rewrite Ha, Hb. simpl. by rewrite lookup_insert_eq.
Qed.

Lemma fresh_unused (h : gmap loc ListObj) : h !! fresh (dom h) = None.
Proof. apply not_elem_of_dom, is_fresh. Qed.

Lemma add_spec w a b oa ob :
  objs w !! a = Some oa →
  objs w !! b = Some ob →
  ∃ c w',
    Conditions.__add__ a b w = (w', Returned c)
    ∧ objs w !! c = None
    ∧ objs w' !! c
      = Some {| cls := ConditionsClass; items := items oa ++ items ob |}
    ∧ (∀ l o, objs w !! l = Some o → objs w' !! l = Some o)
    ∧ fields w' = fields w.
Proof.
  intros Ha Hb. eexists _, _. split; [by apply add_result|].
  set (tmp := fresh (dom (objs w))).
  set (h := <[tmp := _]> (objs w)).
  pose proof (fresh_unused (objs w)) as Htmp. fold tmp in Htmp.
  pose proof (fresh_unused h) as Hc.
  assert (fresh (dom h) ≠ tmp) as Hne.
  { intros Heq. rewrite Heq in Hc. unfold h in Hc.
    by rewrite lookup_insert_eq in Hc. }
  assert (objs w !! fresh (dom h) = None) as Hold.
  { rewrite <- Hc. symmetry. apply lookup_insert_ne. congruence. }
  repeat split; simpl.
  - done.
  - by rewrite lookup_insert_eq.
  - intros l o Hl.
    rewrite lookup_insert_ne by (intros <-; congruence).
    unfold h. rewrite lookup_insert_ne by (intros <-; congruence). done.
Qed.

(** C2: for chains [a] and [b] holding [fa] and [fb], [a + b] returns a new
    [Conditions] object holding exactly [fa ++ fb], so that calling it runs
    the guards of [a] and then those of [b]; every object that existed
    before, [a] and [b] among them, holds what it held, and the store is
    untouched. *)
Theorem add_concatenates w a b oa ob :
  objs w !! a = Some oa →
  objs w !! b = Some ob →
  ∃ c w',
    Conditions.__add__ a b w = (w', Returned c)
    ∧ objs w !! c = None
    ∧ objs w' !! c
      = Some {| cls := ConditionsClass; items := items oa ++ items ob |}
    ∧ objs w' !! a = Some oa
    ∧ objs w' !! b = Some ob
    ∧ (∀ l o, objs w !! l = Some o → objs w' !! l = Some o)
    ∧ fields w' = fields w
    ∧ (∀ inst user,
          Conditions.__call__ c inst user w'
          = Conditions.for_func_in (items oa ++ items ob) inst user w').
Proof.
  intros Ha Hb.
  destruct (add_spec w a b oa ob Ha Hb) as (c & w' & Hr & Hn & Hc & Hk & Hf).
  exists c, w'. repeat split; eauto.
  intros inst user. by rewrite (call_items _ _ _ _ _ Hc).
Qed.

Lemma add_concatenates_witness :
  ∃ c w',
    Conditions.__add__ 1%positive 2%positive Sample.world = (w', Returned c)
    ∧ objs Sample.world !! c = None
    ∧ objs w' !! c
      = Some (Sample.chain [Sample.passes; Sample.returns_false;
                            Sample.passes; Sample.fails "not owner";
                            Sample.fails "late"])
    ∧ objs w' !! 1%positive
      = Some (Sample.chain [Sample.passes; Sample.returns_false])
    ∧ objs w' !! 2%positive
      = Some (Sample.chain [Sample.passes; Sample.fails "not owner";
                            Sample.fails "late"])
    ∧ (∀ l o, objs Sample.world !! l = Some o → objs w' !! l = Some o)
    ∧ fields w' = fields Sample.world
    ∧ (∀ inst user,
          Conditions.__call__ c inst user w'
          = Conditions.for_func_in
              [Sample.passes; Sample.returns_false;
               Sample.passes; Sample.fails "not owner"; Sample.fails "late"]
              inst user w').
Proof.
  apply (add_concatenates Sample.world 1%positive 2%positive
           (Sample.chain [Sample.passes; Sample.returns_false])
           (Sample.chain [Sample.passes; Sample.fails "not owner";
                          Sample.fails "late"])); reflexivity.
Defined.

Lemma call_objs self inst user w :
  objs (Conditions.__call__ self inst user w).1 = objs w.
Proof.
  destruct (objs w !! self) as [o|] eqn:Ho.
  - destruct (call_cases w self o inst user Ho) as
      [(s' & _ & ->)|(pre & func & post & s2 & e & _ & _ & ->)]; done.
  - unfold Conditions.__call__, mbind, M_bind, list_items. by rewrite Ho.
Qed.

Lemma as_bool_world self inst user w :
  (Conditions.as_bool self inst user w).1
  = (Conditions.__call__ self inst user w).1.
Proof.
  rewrite as_bool_call.
  destruct (Conditions.__call__ self inst user w) as [w' [[]|e]]; [done|].
  by destruct (is_ConditionFailed e).
Qed.

Lemma bind_world {A} (m : M A) w :
  (m;; mret ()) w = ((m w).1, match (m w).2 with
                              | Returned _ => Returned ()
                              | Raised e => Raised e
                              end).
Proof. unfold mbind, M_bind. by destruct (m w) as [w' [a|e]]. Qed.

Lemma add_objs a b w l o :
  objs w !! l = Some o →
  objs (Conditions.__add__ a b w).1 !! l = Some o.
Proof.
  intros Hl.
  destruct (objs w !! a) as [oa|] eqn:Ha;
    [destruct (objs w !! b) as [ob|] eqn:Hb|].
  - destruct (add_spec w a b oa ob Ha Hb) as (c & w' & -> & _ & _ & Hk & _).
    by apply Hk.
  - unfold Conditions.__add__, PyList.__add__, mbind, M_bind, list_items.
    by rewrite Ha, Hb.
  - unfold Conditions.__add__, PyList.__add__, mbind, M_bind, list_items.
    by rewrite Ha.
Qed.

Lemma perform_own_objs op self w l o :
  objs w !! l = Some o →
  objs (perform (Own op) self w).1 !! l = Some o.
Proof.
  intros Hl. destruct op as [other|inst owner|inst user|inst user]; simpl.
  - rewrite bind_world. simpl. by apply add_objs.
  - done.
  - by rewrite call_objs.
  - rewrite bind_world. simpl. by rewrite as_bool_world, call_objs.
Qed.

(** C6, as the code has it: no operation that [Conditions] defines itself
    (concatenation, descriptor access, call, [as_bool]) changes any list
    object that exists, so none changes the guard sequence of a chain; and
    the concatenation of two chains returns an object that did not exist
    before. *)
Theorem own_operations_never_mutate :
  (∀ op : OwnOp, keeps_items (Own op))
  ∧ (∀ (op : OwnOp) w self l o,
        objs w !! l = Some o →
        objs (perform (Own op) self w).1 !! l = Some o)
  ∧ (∀ w a b oa ob,
        objs w !! a = Some oa →
        objs w !! b = Some ob →
        ∃ c w',
          Conditions.__add__ a b w = (w', Returned c)
          ∧ objs w !! c = None
          ∧ objs w' !! c
            = Some {| cls := ConditionsClass;
                      items := items oa ++ items ob |}).
Proof.
  split; [|split].
  - intros op w self o Ho.
    by rewrite (perform_own_objs op self w self o Ho).
  - intros op w self l o. apply perform_own_objs.
  - intros w a b oa ob Ha Hb.
    destruct (add_spec w a b oa ob Ha Hb) as (c & w' & ? & ? & ? & _).
    by exists c, w'.
Qed.

Lemma own_operations_never_mutate_witness :
  items <$> objs (perform (Own (OpAdd 2%positive)) 1%positive
                    Sample.world).1 !! 1%positive
  = Some [Sample.passes; Sample.returns_false]
  ∧ objs (perform (Own (OpAsBool Sample.article Sample.alice)) 5%positive
            Sample.world).1 !! 5%positive
    = Some (Sample.chain [Sample.marks]).
Proof.
  destruct own_operations_never_mutate as (Hkeep & Hobjs & _).
  split.
  - apply (Hkeep (OpAdd 2%positive) Sample.world 1%positive
             (Sample.chain [Sample.passes; Sample.returns_false])).
    reflexivity.
  - apply (Hobjs (OpAsBool Sample.article Sample.alice) Sample.world
             5%positive 5%positive (Sample.chain [Sample.marks])).
    reflexivity.
Defined.

(** C6, as stated, fails: a chain is a [list], and the inherited [append]
    changes its guard sequence in place. *)
Lemma append_changes_items :
  ¬ keeps_items (Inherited (OpAppend Sample.passes)).
Proof.
  intros H.
  specialize (H Sample.world 3%positive (Sample.chain []) eq_refl).
  vm_compute in H. discriminate H.
Qed.

(** [a += b] is the inherited in-place [list.__iadd__] as well. *)
Lemma iadd_changes_items :
  ¬ keeps_items (Inherited (OpIAdd 1%positive)).
Proof.
  intros H.
  specialize (H Sample.world 3%positive (Sample.chain []) eq_refl).
  vm_compute in H. discriminate H.
Qed.

(** ** The state-machine engine *)

Lemma slot_get_set fld inst v s :
  slot_get fld inst (slot_set fld inst v s) = v.
Proof. unfold slot_get, slot_set. by rewrite lookup_insert_eq. Qed.

(** Once the descriptor is found, the permission granted and the guards
    passed, [attempt] is the action step on the store the guards left. *)
Lemma attempt_enters_action check registry fld inst name actor w d o s1 :
  find registry fld (slot_get fld inst (fields w)) name = Some d →
  granted check d inst actor = true →
  objs w !! tr_conditions d = Some o →
  all_pass inst actor (items o) (fields w) s1 →
  attempt check registry fld inst name actor w
  = run_action fld d inst (set_fields w s1).
Proof.
  intros Hfind Hperm Ho Hpass.
  unfold attempt, mbind, M_bind, read. rewrite Hfind.
  unfold permission_gate. unfold granted in Hperm.
  destruct (tr_permission d) as [perm|]; [rewrite Hperm|]; simpl;
    by rewrite (call_pass _ _ _ _ _ _ Ho Hpass).
Qed.

(** C7: a protected field refuses every direct assignment with
    [ProtectedWriteForbidden] and the world, the stored value with it, is
    as before; reading returns the current value and never fails; and a
    transition that is found, permitted, passes its guards and whose action
    completes still moves the field to the target state, after which direct
    assignment is refused as before. *)
Theorem protected_field_changes_by_transition_only fld :
  field_protected fld = true →
  (∀ inst x w,
      direct_write fld inst x w = (w, Raised ProtectedWriteForbidden))
  ∧ (∀ inst w,
        read fld inst w = (w, Returned (slot_get fld inst (fields w))))
  ∧ (∀ check registry inst name actor w d o s1 s2 v,
        find registry fld (slot_get fld inst (fields w)) name = Some d →
        granted check d inst actor = true →
        objs w !! tr_conditions d = Some o →
        all_pass inst actor (items o) (fields w) s1 →
        tr_action d inst s1 = (s2, Returned v) →
        ∃ w',
          attempt check registry fld inst name actor w = (w', Returned v)
          ∧ fields w' = slot_set fld inst (tr_target d) s2
          ∧ read fld inst w' = (w', Returned (tr_target d))).
Proof.
  intros Hprot. split; [|split].
  - intros inst x w. unfold direct_write. by rewrite Hprot.
  - done.
  - intros check registry inst name actor w d o s1 s2 v
      Hfind Hperm Ho Hpass Hact.
    rewrite (attempt_enters_action _ _ _ _ _ _ _ _ _ _ Hfind Hperm Ho Hpass).
    unfold run_action. simpl. rewrite Hact.
    eexists. split; [done|]. split; [done|].
    unfold read. simpl. by rewrite slot_get_set.
Qed.

Lemma protected_field_changes_by_transition_only_witness :
  direct_write Sample.status Sample.article "change" Sample.world
  = (Sample.world, Raised ProtectedWriteForbidden)
  ∧ read Sample.status Sample.article Sample.world
    = (Sample.world, Returned "new")
  ∧ ∃ w',
      attempt Sample.allow_all [Sample.publish_status] Sample.status
        Sample.article "publish" Sample.alice Sample.world
      = (w', Returned VNone)
      ∧ fields w' = slot_set Sample.status Sample.article "published" ∅
      ∧ read Sample.status Sample.article w' = (w', Returned "published").
Proof.
  destruct (protected_field_changes_by_transition_only Sample.status
              eq_refl) as (Hwrite & Hread & Hmove).
  split; [apply Hwrite|]. split; [apply Hread|].
  apply (Hmove Sample.allow_all [Sample.publish_status] Sample.article
           "publish" Sample.alice Sample.world Sample.publish_status
           (Sample.chain []) ∅ ∅ VNone); try reflexivity.
  constructor.
Defined.

(** C8: when a transition that declares an error-target state is found,
    permitted and passes its guards, and its action raises, the attempt
    raises the action's exception and the field then holds the error-target
    state. *)
Theorem action_failure_commits_error_state
    check registry fld inst name actor w d o s1 s2 e failed :
  find registry fld (slot_get fld inst (fields w)) name = Some d →
  granted check d inst actor = true →
  objs w !! tr_conditions d = Some o →
  all_pass inst actor (items o) (fields w) s1 →
  tr_on_error d = Some failed →
  tr_action d inst s1 = (s2, Raised e) →
  ∃ w',
    attempt check registry fld inst name actor w = (w', Raised e)
    ∧ fields w' = slot_set fld inst failed s2
    ∧ slot_get fld inst (fields w') = failed
    ∧ read fld inst w' = (w', Returned failed).
Proof.
  intros Hfind Hperm Ho Hpass Herr Hact.
  rewrite (attempt_enters_action _ _ _ _ _ _ _ _ _ _ Hfind Hperm Ho Hpass).
  unfold run_action. simpl. rewrite Hact, Herr.
  eexists. split; [done|]. split; [done|].
  unfold read. simpl. by rewrite slot_get_set.
Qed.

Lemma action_failure_commits_error_state_witness :
  ∃ w',
    attempt Sample.allow_all [Sample.publish_state] Sample.state
      Sample.article "publish" Sample.alice Sample.world
    = (w', Raised (OtherError "ValueError" "boom"))
    ∧ fields w' = slot_set Sample.state Sample.article "failed" ∅
    ∧ slot_get Sample.state Sample.article (fields w') = "failed"
    ∧ read Sample.state Sample.article w' = (w', Returned "failed").
Proof.
  apply (action_failure_commits_error_state Sample.allow_all
           [Sample.publish_state] Sample.state Sample.article "publish"
           Sample.alice Sample.world Sample.publish_state (Sample.chain [])
           ∅ ∅ (OtherError "ValueError" "boom") "failed"); try reflexivity.
  constructor.
Defined.

(** * Further properties of the chains *)

(** ** Calling a concatenation *)

Lemma for_func_in_app xs ys inst user w :
  Conditions.for_func_in (xs ++ ys) inst user w
  = (Conditions.for_func_in xs inst user;;
     Conditions.for_func_in ys inst user) w.
Proof.
  revert w. induction xs as [|g xs IH]; intros w; [done|].
  simpl. step_guard. destruct (g inst user (fields w)) as [s [v|e]]; [|done].
  rewrite IH. by step_guard.
Qed.

Lemma for_func_in_objs fs inst user w :
  objs (Conditions.for_func_in fs inst user w).1 = objs w.
Proof.
  destruct (for_func_in_cases fs inst user w) as
    [(s' & _ & ->)|(pre & func & post & s2 & e & _ & _ & ->)]; done.
Qed.

Lemma call_app w a b c oa ob oc inst user :
  objs w !! a = Some oa →
  objs w !! b = Some ob →
  objs w !! c = Some oc →
  items oc = items oa ++ items ob →
  Conditions.__call__ c inst user w
  = (Conditions.__call__ a inst user;; Conditions.__call__ b inst user) w.
Proof.
  intros Ha Hb Hc Hi.
  rewrite (call_items _ _ _ _ _ Hc), Hi, for_func_in_app.
  unfold mbind, M_bind. rewrite (call_items _ _ _ _ _ Ha).
  pose proof (for_func_in_objs (items oa) inst user w) as Hobjs.
  destruct (Conditions.for_func_in (items oa) inst user w)
    as [w1 [[]|e]]; [|done].
  simpl in Hobjs. symmetry. apply call_items. by rewrite Hobjs.
Qed.

(** X1: calling [a + b] is calling [a] and, when that returns, calling [b]
    on the world it left; when the call of [a] raises, the call of [a + b]
    raises the same exception in the same world and no guard of [b] runs.
    This holds in every world that has the list objects left by the
    concatenation, whatever its store. *)
Theorem call_of_sum_is_call_then_call w a b oa ob :
  objs w !! a = Some oa →
  objs w !! b = Some ob →
  ∃ c w',
    Conditions.__add__ a b w = (w', Returned c)
    ∧ (∀ inst user w0,
          objs w0 = objs w' →
          Conditions.__call__ c inst user w0
          = (Conditions.__call__ a inst user;;
             Conditions.__call__ b inst user) w0)
    ∧ (∀ inst user w0 w1 e,
          objs w0 = objs w' →
          Conditions.__call__ a inst user w0 = (w1, Raised e) →
          Conditions.__call__ c inst user w0 = (w1, Raised e)).
Proof.
  intros Ha Hb.
  destruct (add_spec w a b oa ob Ha Hb) as (c & w' & Hr & _ & Hc & Hk & _).
  exists c, w'. split; [done|].
  assert (∀ inst user w0,
            objs w0 = objs w' →
            Conditions.__call__ c inst user w0
            = (Conditions.__call__ a inst user;;
               Conditions.__call__ b inst user) w0) as Hseq.
  { intros inst user w0 Hw0.
    eapply (call_app w0 a b c oa ob); rewrite ?Hw0; eauto. }
  split; [done|].
  intros inst user w0 w1 e Hw0 Hfail.
  rewrite (Hseq _ _ _ Hw0). unfold mbind, M_bind. by rewrite Hfail.
Qed.

Lemma call_of_sum_is_call_then_call_witness :
  ∃ c w',
    Conditions.__add__ 6%positive 5%positive Sample.world = (w', Returned c)
    ∧ (∀ inst user w0,
          objs w0 = objs w' →
          Conditions.__call__ c inst user w0
          = (Conditions.__call__ 6%positive inst user;;
             Conditions.__call__ 5%positive inst user) w0)
    ∧ (∀ inst user w0 w1 e,
          objs w0 = objs w' →
          Conditions.__call__ 6%positive inst user w0 = (w1, Raised e) →
          Conditions.__call__ c inst user w0 = (w1, Raised e)).
Proof.
  apply (call_of_sum_is_call_then_call Sample.world 6%positive 5%positive
           (Sample.chain [Sample.fails "not owner"; Sample.marks])
           (Sample.chain [Sample.marks])); reflexivity.
Defined.

(** X2: [as_bool] of [a + b] is the short-circuit conjunction of the two:
    [as_bool] of [a] and, only when that is [True], [as_bool] of [b] on the
    world left; an exception other than [ConditionFailed] of either one
    comes out. *)
Theorem as_bool_of_sum_is_conjunction w a b oa ob :
  objs w !! a = Some oa →
  objs w !! b = Some ob →
  ∃ c w',
    Conditions.__add__ a b w = (w', Returned c)
    ∧ ∀ inst user w0,
        objs w0 = objs w' →
        Conditions.as_bool c inst user w0
        = (Conditions.as_bool a inst user ≫= λ ok : bool,
             if ok then Conditions.as_bool b inst user else mret false) w0.
Proof.
  intros Ha Hb.
  destruct (add_spec w a b oa ob Ha Hb) as (c & w' & Hr & _ & Hc & Hk & _).
  exists c, w'. split; [done|].
  intros inst user w0 Hw0.
  rewrite (as_bool_call c).
  rewrite (call_app w0 a b c oa ob
             {| cls := ConditionsClass; items := items oa ++ items ob |}
             inst user) by (rewrite ?Hw0; eauto).
  unfold mbind, M_bind. rewrite (as_bool_call a).
  destruct (Conditions.__call__ a inst user w0) as [w1 [[]|e]].
  - by rewrite (as_bool_call b).
  - by destruct (is_ConditionFailed e).
Qed.

Lemma as_bool_of_sum_is_conjunction_witness :
  ∃ c w',
    Conditions.__add__ 1%positive 2%positive Sample.world = (w', Returned c)
    ∧ ∀ inst user w0,
        objs w0 = objs w' →
        Conditions.as_bool c inst user w0
        = (Conditions.as_bool 1%positive inst user ≫= λ ok : bool,
             if ok then Conditions.as_bool 2%positive inst user
             else mret false) w0.
Proof.
  apply (as_bool_of_sum_is_conjunction Sample.world 1%positive 2%positive
           (Sample.chain [Sample.passes; Sample.returns_false])
           (Sample.chain [Sample.passes; Sample.fails "not owner";
                          Sample.fails "late"])); reflexivity.
Defined.

(** ** Concatenation as an operation on chains *)

Lemma for_func_in_store_only fs inst user w w0 :
  fields w = fields w0 →
  (Conditions.for_func_in fs inst user w).2
  = (Conditions.for_func_in fs inst user w0).2
  ∧ fields (Conditions.for_func_in fs inst user w).1
    = fields (Conditions.for_func_in fs inst user w0).1.
Proof.
  intros Hf.
  destruct (for_func_in_cases fs inst user w) as
    [(s' & Hp & ->)|(pre & func & post & s2 & e & -> & Hff & ->)].
  - rewrite Hf in Hp. by rewrite (for_func_in_pass _ _ _ _ _ Hp).
  - rewrite Hf in Hff. by rewrite (for_func_in_fail _ _ _ _ _ _ _ _ Hff).
Qed.

(** X3: concatenation is associative: [(a + b) + c] and [a + (b + c)] are
    new chains that hold the same guards, those of [a], of [b] and of [c] in
    this order, and calling the one or the other on the same store gives the
    same outcome and the same store. *)
Theorem add_is_associative w a b c oa ob oc :
  objs w !! a = Some oa →
  objs w !! b = Some ob →
  objs w !! c = Some oc →
  ∃ l wl r wr,
    (Conditions.__add__ a b ≫= λ ab, Conditions.__add__ ab c) w
    = (wl, Returned l)
    ∧ (Conditions.__add__ b c ≫= λ bc, Conditions.__add__ a bc) w
      = (wr, Returned r)
    ∧ objs wl !! l
      = Some {| cls := ConditionsClass;
                items := items oa ++ items ob ++ items oc |}
    ∧ objs wr !! r
      = Some {| cls := ConditionsClass;
                items := items oa ++ items ob ++ items oc |}
    ∧ ∀ inst user s,
        (Conditions.__call__ l inst user (set_fields wl s)).2
        = (Conditions.__call__ r inst user (set_fields wr s)).2
        ∧ fields (Conditions.__call__ l inst user (set_fields wl s)).1
          = fields (Conditions.__call__ r inst user (set_fields wr s)).1.
Proof.
  intros Ha Hb Hc.
  destruct (add_spec w a b oa ob Ha Hb)
    as (ab & w1 & Hr1 & _ & Hab & Hk1 & _).
  destruct (add_spec w1 ab c _ oc Hab (Hk1 _ _ Hc))
    as (l & wl & Hrl & _ & Hl & _ & _).
  destruct (add_spec w b c ob oc Hb Hc)
    as (bc & w2 & Hr2 & _ & Hbc & Hk2 & _).
  destruct (add_spec w2 a bc oa _ (Hk2 _ _ Ha) Hbc)
    as (r & wr & Hrr & _ & Hr & _ & _).
  simpl in Hl, Hr. rewrite <- app_assoc in Hl.
  exists l, wl, r, wr. unfold mbind, M_bind. rewrite Hr1, Hr2.
  repeat split; try done.
  - rewrite (call_items (set_fields wl s) l _ inst user Hl).
    rewrite (call_items (set_fields wr s) r _ inst user Hr).
    by apply for_func_in_store_only.
  - rewrite (call_items (set_fields wl s) l _ inst user Hl).
    rewrite (call_items (set_fields wr s) r _ inst user Hr).
    by apply for_func_in_store_only.
Qed.

Lemma add_is_associative_witness :
  ∃ l wl r wr,
    (Conditions.__add__ 1%positive 2%positive
       ≫= λ ab, Conditions.__add__ ab 5%positive) Sample.world
    = (wl, Returned l)
    ∧ (Conditions.__add__ 2%positive 5%positive
         ≫= λ bc, Conditions.__add__ 1%positive bc) Sample.world
      = (wr, Returned r)
    ∧ objs wl !! l
      = Some (Sample.chain [Sample.passes; Sample.returns_false;
                            Sample.passes; Sample.fails "not owner";
                            Sample.fails "late"; Sample.marks])
    ∧ objs wr !! r
      = Some (Sample.chain [Sample.passes; Sample.returns_false;
                            Sample.passes; Sample.fails "not owner";
                            Sample.fails "late"; Sample.marks])
    ∧ ∀ inst user s,
        (Conditions.__call__ l inst user (set_fields wl s)).2
        = (Conditions.__call__ r inst user (set_fields wr s)).2
        ∧ fields (Conditions.__call__ l inst user (set_fields wl s)).1
          = fields (Conditions.__call__ r inst user (set_fields wr s)).1.
Proof.
  apply (add_is_associative Sample.world 1%positive 2%positive 5%positive
           (Sample.chain [Sample.passes; Sample.returns_false])
           (Sample.chain [Sample.passes; Sample.fails "not owner";
                          Sample.fails "late"])
           (Sample.chain [Sample.marks])); reflexivity.
Defined.



(** ** Aliasing *)

(** X5: a concatenation copies: when a guard is appended to [a] after
    [c = a + b] was built, [a] holds the new guard and [c] still holds
    exactly the guards [a] and [b] had. *)
Theorem sum_is_unaffected_by_later_append w a b oa ob x :
  objs w !! a = Some oa →
  objs w !! b = Some ob →
  ∃ c w',
    (Conditions.__add__ a b ≫= λ c, PyList.append a x;; mret c) w
    = (w', Returned c)
    ∧ objs w' !! a = Some {| cls := cls oa; items := items oa ++ [x] |}
    ∧ objs w' !! c
      = Some {| cls := ConditionsClass; items := items oa ++ items ob |}.
Proof.
  intros Ha Hb.
  destruct (add_spec w a b oa ob Ha Hb) as (c & w1 & Hr & Hn & Hc & Hk & _).
  assert (a ≠ c) as Hne by (intros ->; congruence).
  eexists c, _. unfold mbind, M_bind, PyList.append.
  rewrite Hr, (Hk _ _ Ha). split; [reflexivity|]. simpl. split.
  - by rewrite lookup_insert_eq.
  - by rewrite lookup_insert_ne.
Qed.

Lemma sum_is_unaffected_by_later_append_witness :
  ∃ c w',
    (Conditions.__add__ 1%positive 5%positive
       ≫= λ c, PyList.append 1%positive Sample.crashes;; mret c) Sample.world
    = (w', Returned c)
    ∧ objs w' !! 1%positive
      = Some (Sample.chain [Sample.passes; Sample.returns_false;
                            Sample.crashes])
    ∧ objs w' !! c
      = Some (Sample.chain [Sample.passes; Sample.returns_false;
                            Sample.marks]).
Proof.
  apply (sum_is_unaffected_by_later_append Sample.world 1%positive
           5%positive (Sample.chain [Sample.passes; Sample.returns_false])
           (Sample.chain [Sample.marks]) Sample.crashes); reflexivity.
Defined.

(** X6: a bound chain holds its chain by reference: when a guard is
    appended to the chain after descriptor access returned the bound chain,
    calling the bound chain runs the chain's guards and then the appended
    one. *)
Theorem bound_chain_follows_its_chain w c o inst owner x user :
  objs w !! c = Some o →
  py_bool inst = true →
  ∃ bound w',
    Conditions.__get__ c inst owner = inr bound
    ∧ PyList.append c x w = (w', Returned ())
    ∧ BoundConditions.__call__ bound user w'
      = Conditions.for_func_in (items o ++ [x]) inst user w'.
Proof.
  intros Ho Hi. unfold Conditions.__get__, PyList.append. rewrite Hi, Ho.
  eexists _, _. split; [reflexivity|]. split; [reflexivity|].
  unfold BoundConditions.__call__. simpl.
  apply (call_items _ c {| cls := cls o; items := items o ++ [x] |}).
  simpl. by rewrite lookup_insert_eq.
Qed.

Lemma bound_chain_follows_its_chain_witness :
  ∃ bound w',
    Conditions.__get__ 1%positive Sample.article "Article" = inr bound
    ∧ PyList.append 1%positive (Sample.fails "late") Sample.world
      = (w', Returned ())
    ∧ BoundConditions.__call__ bound Sample.alice w'
      = Conditions.for_func_in
          [Sample.passes; Sample.returns_false; Sample.fails "late"]
          Sample.article Sample.alice w'.
Proof.
  apply (bound_chain_follows_its_chain Sample.world 1%positive
           (Sample.chain [Sample.passes; Sample.returns_false])
           Sample.article "Article" (Sample.fails "late") Sample.alice);
    reflexivity.
Defined.

(** ** What makes a guard refuse *)

Lemma for_func_in_same_but_value fs fs' inst user w :
  Forall2 same_but_value fs fs' →
  Conditions.for_func_in fs inst user w
  = Conditions.for_func_in fs' inst user w.
Proof.
  intros H. revert w. induction H as [|g g' fs fs' Hg _ IH]; intros w; [done|].
  simpl. step_guard. specialize (Hg inst user (fields w)).
  destruct (g inst user (fields w)) as [s [v|e]],
           (g' inst user (fields w)) as [s' [v'|e']];
    simpl in Hg; destruct Hg as [-> Hr]; try discriminate Hr.
  - apply IH.
  - by injection Hr as ->.
Qed.

(** X7: a chain looks at what its guards raise and never at what they
    return: two chains whose guards, position by position, write the same
    and raise the same give the same call and the same [as_bool], whatever
    values the guards return; a guard that returns [False] passes. *)
Theorem returned_values_are_ignored w a b oa ob inst user :
  objs w !! a = Some oa →
  objs w !! b = Some ob →
  Forall2 same_but_value (items oa) (items ob) →
  Conditions.__call__ a inst user w = Conditions.__call__ b inst user w
  ∧ Conditions.as_bool a inst user w = Conditions.as_bool b inst user w.
Proof.
  intros Ha Hb Hsame.
  assert (Conditions.__call__ a inst user w
          = Conditions.__call__ b inst user w) as Hcall.
  { rewrite (call_items _ _ _ _ _ Ha), (call_items _ _ _ _ _ Hb).
    by apply for_func_in_same_but_value. }
  split; [done|]. by rewrite !as_bool_call, Hcall.
Qed.

Lemma returned_values_are_ignored_witness :
  Conditions.__call__ 2%positive Sample.article Sample.alice Scenario.world
  = Conditions.__call__ 3%positive Sample.article Sample.alice Scenario.world
  ∧ Conditions.as_bool 2%positive Sample.article Sample.alice Scenario.world
    = Conditions.as_bool 3%positive Sample.article Sample.alice
        Scenario.world.
Proof.
  apply (returned_values_are_ignored Scenario.world 2%positive 3%positive
           (Sample.chain [Sample.passes; Sample.passes])
           (Sample.chain [Sample.returns_false; Sample.returns_false]));
    try reflexivity.
  repeat constructor.
Defined.

(** X8: [as_bool] swallows the exception, not the writes: when the first
    guard that raises raises [ConditionFailed], [as_bool] returns [False]
    and the store is the one that guard left, with what the guards before it
    wrote; nothing is rolled back and no later guard runs. *)
Theorem as_bool_false_keeps_writes
    w self o inst user pre func post s2 reason :
  objs w !! self = Some o →
  items o = pre ++ func :: post →
  first_failure inst user pre func (fields w) s2 (ConditionFailed reason) →
  Conditions.as_bool self inst user w = (set_fields w s2, Returned false).
Proof.
  intros Ho Hi Hf.
  by rewrite as_bool_call, (call_fail _ _ _ _ _ _ _ _ _ _ Ho Hi Hf).
Qed.

Lemma as_bool_false_keeps_writes_witness :
  Conditions.as_bool 1%positive Sample.article Sample.alice Scenario.world
  = (set_fields Scenario.world (<[(Sample.article, "seen") := "yes"]> ∅),
     Returned false).
Proof.
  apply (as_bool_false_keeps_writes Scenario.world 1%positive
           (Sample.chain [Sample.marks; Sample.fails "not owner";
                          Sample.crashes])
           Sample.article Sample.alice
           [Sample.marks] (Sample.fails "not owner") [Sample.crashes]
           (<[(Sample.article, "seen") := "yes"]> ∅) "not owner");
    try reflexivity.
  exists (<[(Sample.article, "seen") := "yes"]> ∅). split; [|reflexivity].
  eapply all_pass_cons; [reflexivity|constructor].
Defined.
